(** * Region-model trainer: label extraction, feature construction,
      dataset assembly and metadata

    A shallow embedding of [scripts/train_inferred_region_model.py].

    Conventions of the embedding.
    - A visit record is a Python [dict] with string keys, modelled as a
      [gmap string pyval]; [pyval] is the universe of values [json.loads]
      can produce.
    - Python exceptions are explicit: every function that can raise returns
      a [result].
    - Numbers are exact: a Python [float] is a rational kept in lowest
      terms after every arithmetic operation, so that equal values are
      equal terms.  Non-finite floats (NaN, the infinities, and with them
      pandas' NaT) and rounding are outside the model.
    - Strings are byte strings; [lower] is the ASCII case map. *)

From Stdlib Require Import Ascii OrdersEx QArith Qreduction Reals Qreals Psatz.
From stdpp Require Import base option list gmap strings sorting pretty.

Local Open Scope string_scope.
Local Open Scope list_scope.
Local Open Scope Z_scope.

(** ** Python values and exceptions *)

#[warnings="-register-all"]
Inductive pyval : Type :=
  | VNone
  | VBool (b : bool)
  | VInt (n : Z)
  | VFloat (q : Q)
  | VStr (s : string)
  | VList (l : list pyval)
  | VDict (d : gmap string pyval).

Inductive exn : Set :=
  | TypeError
  | AttributeError
  | ValueError
  | AssertionError
  | IndexError
  | LibraryError.

Inductive result (A : Type) : Type :=
  | Ok (a : A)
  | Raise (e : exn).
Arguments Ok {A} a.
Arguments Raise {A} e.

#[global] Instance result_ret : MRet result := fun A a => Ok a.
#[global] Instance result_bind : MBind result := fun A B f m =>
  match m with
  | Ok a => f a
  | Raise e => Raise e
  end.


(** ** Numbers *)

Definition Qltb (a b : Q) : bool := negb (Qle_bool b a).

(** [float(a) op float(b)], kept in lowest terms. *)
Definition fsub (a b : Q) : Q := Qred (a - b).
Definition fadd (a b : Q) : Q := Qred (a + b).
Definition fdiv (a b : Q) : Q := Qred (a / b).
Definition fsquare (a : Q) : Q := Qred (a * a).

(** Python's two-argument [max] and [min]: the first argument is kept
    unless the second is strictly better. *)
Definition py_max (a b : Q) : Q := if Qltb a b then b else a.
Definition py_min (a b : Q) : Q := if Qltb b a then b else a.

(** The numeric reading of a value: [bool] is a subclass of [int]. *)
Definition as_number (v : pyval) : option Q :=
  match v with
  | VBool b => Some (if b then 1%Q else 0%Q)
  | VInt n => Some (inject_Z n)
  | VFloat q => Some q
  | _ => None
  end.


(** [v - c], [v / c] and [v > c] against a float or int literal [c]. *)
Definition py_sub (v : pyval) (c : Q) : result Q :=
  match as_number v with
  | Some x => Ok (fsub x c)
  | None => Raise TypeError
  end.

Definition py_truediv (v : pyval) (c : Q) : result Q :=
  match as_number v with
  | Some x => Ok (fdiv x c)
  | None => Raise TypeError
  end.

Definition py_gt (v : pyval) (c : Q) : result bool :=
  match as_number v with
  | Some x => Ok (Qltb c x)
  | None => Raise TypeError
  end.

(** ** Truth values, [dict.get], [len] *)

Definition truthy (v : pyval) : bool :=
  match v with
  | VNone => false
  | VBool b => b
  | VInt n => negb (n =? 0)
  | VFloat q => negb (Qeq_bool q 0)
  | VStr s => negb (String.eqb s "")
  | VList l => match l with [] => false | _ :: _ => true end
  | VDict d => negb (Nat.eqb (size d) 0)
  end.

(** [row.get(key)]: the value, or [None]. *)
Definition row_get (row : gmap string pyval) (key : string) : pyval :=
  default VNone (row !! key).

(** [obj.get(key, dflt)] on a value that is only known to be some Python
    object: anything but a [dict] has no attribute [get]. *)
Definition py_get (obj : pyval) (key : string) (dflt : pyval) : result pyval :=
  match obj with
  | VDict d => Ok (default dflt (d !! key))
  | _ => Raise AttributeError
  end.

Definition py_len (v : pyval) : result nat :=
  match v with
  | VStr s => Ok (String.length s)
  | VList l => Ok (length l)
  | VDict d => Ok (size d)
  | _ => Raise TypeError
  end.

(** ** Strings: [str.lower] and the [in] operator *)

Definition lower_ascii (c : ascii) : ascii :=
  let n := nat_of_ascii c in
  if (65 <=? n)%nat && (n <=? 90)%nat then ascii_of_nat (n + 32) else c.

Fixpoint lower (s : string) : string :=
  match s with
  | EmptyString => EmptyString
  | String c s' => String (lower_ascii c) (lower s')
  end.

Fixpoint starts_with (p s : string) : bool :=
  match p, s with
  | EmptyString, _ => true
  | String _ _, EmptyString => false
  | String a p', String b s' => Ascii.eqb a b && starts_with p' s'
  end.

(** [needle in hay] for strings: substring containment. *)
Fixpoint str_in (needle hay : string) : bool :=
  starts_with needle hay ||
  match hay with
  | EmptyString => false
  | String _ hay' => str_in needle hay'
  end.

(** ** The region catalog *)

Record region_meta : Type := {
  name : string;
  country : string;
  lat : Q;
  lon : Q
}.

(** [REGION_DEFINITIONS]; a Python dict iterates in insertion order, which
    both lookups below depend on, so the catalog is the ordered list of its
    items. *)
Definition REGION_DEFINITIONS : list (string * region_meta) :=
  [ ("eu-ams", {| name := "Amsterdam Metro"; country := "NL";
                  lat := 523676 # 10000; lon := 49041 # 10000 |});
    ("eu-bru", {| name := "Brussels Metro"; country := "BE";
                  lat := 508503 # 10000; lon := 43517 # 10000 |});
    ("eu-fra", {| name := "Frankfurt Metro"; country := "DE";
                  lat := 501109 # 10000; lon := 86821 # 10000 |});
    ("eu-ber", {| name := "Berlin Metro"; country := "DE";
                  lat := 525200 # 10000; lon := 134050 # 10000 |});
    ("eu-par", {| name := "Paris Metro"; country := "FR";
                  lat := 488566 # 10000; lon := 23522 # 10000 |});
    ("eu-lon", {| name := "London Metro"; country := "GB";
                  lat := 515074 # 10000; lon := -1278 # 10000 |});
    ("us-nyc", {| name := "New York Metro"; country := "US";
                  lat := 407128 # 10000; lon := -740060 # 10000 |});
    ("us-lax", {| name := "Los Angeles Metro"; country := "US";
                  lat := 340522 # 10000; lon := -1182437 # 10000 |});
    ("us-chi", {| name := "Chicago Metro"; country := "US";
                  lat := 418781 # 10000; lon := -876298 # 10000 |});
    ("ap-tok", {| name := "Tokyo Metro"; country := "JP";
                  lat := 356762 # 10000; lon := 1396503 # 10000 |}) ].

Definition region_ids : list string := REGION_DEFINITIONS.*1.

(** ** Distances

    [best_distance] starts at [float('inf')] and afterwards holds
    [(dlat ** 2 + dlon ** 2) ** 0.5].  A square root of a rational is
    kept symbolically, by its radicand, which makes the two comparisons
    the code performs exact and computable. *)

Inductive dist : Type :=
  | DInf
  | DSqrt (radicand : Q).

(** [a < b] between two distances. *)
Definition dist_ltb (a b : dist) : bool :=
  match a, b with
  | DSqrt x, DSqrt y => Qltb x y
  | DSqrt _, DInf => true
  | DInf, _ => false
  end.

(** [a < c] between a distance and a non-negative literal. *)
Definition dist_lt_const (a : dist) (c : Q) : bool :=
  match a with
  | DSqrt x => Qltb x (c * c)
  | DInf => false
  end.

(** ** Label Extractor *)

Fixpoint nearest_loop (regions : list (string * region_meta))
    (lat_v lon_v : pyval) (best_region : option string) (best_distance : dist)
    : result (option string * dist) :=
  match regions with
  | [] => Ok (best_region, best_distance)
  | (region_id, meta) :: rest =>
      dlat ← py_sub lat_v (lat meta);
      dlon ← py_sub lon_v (lon meta);
      let distance := DSqrt (fadd (fsquare dlat) (fsquare dlon)) in
      if dist_ltb distance best_distance
      then nearest_loop rest lat_v lon_v (Some region_id) distance
      else nearest_loop rest lat_v lon_v best_region best_distance
  end.

Definition nearest_region_by_coords (lat_v lon_v : pyval)
    : result (option string) :=
  '(best_region, best_distance) ←
    nearest_loop REGION_DEFINITIONS lat_v lon_v None DInf;
  Ok (if dist_lt_const best_distance 100 then best_region else None).

Fixpoint find_city_loop (regions : list (string * region_meta))
    (city_lower : string) : option string :=
  match regions with
  | [] => None
  | (region_id, meta) :: rest =>
      if str_in city_lower (lower (name meta)) then Some region_id
      else find_city_loop rest city_lower
  end.

(** [city.lower()] exists on [str] only. *)
Definition find_region_by_city (city : pyval) : result (option string) :=
  match city with
  | VStr s => Ok (find_city_loop REGION_DEFINITIONS (lower s))
  | _ => Raise AttributeError
  end.

(** [if region:] on a value that is a region identifier or [None]. *)
Definition label_truthy (region : option string) : bool :=
  match region with
  | Some r => negb (String.eqb r "")
  | None => false
  end.

(** One city step: [if row.get(key): region = find_region_by_city(row[key]);
    if region: return region], with [None] standing for "go on". *)
Definition city_step (row : gmap string pyval) (key : string)
    : result (option string) :=
  if truthy (row_get row key) then
    region ← find_region_by_city (row_get row key);
    Ok (if label_truthy region then region else None)
  else Ok None.

(** Lines 87-97 of the source: the two city steps and the final
    [return None]. *)
Definition city_label (row : gmap string pyval) : result (option string) :=
  found ← city_step row "geoip_city";
  match found with
  | Some region => Ok (Some region)
  | None =>
      found' ← city_step row "asn_inferred_city";
      match found' with
      | Some region => Ok (Some region)
      | None => Ok None
      end
  end.

Definition extract_label (row : gmap string pyval) : result (option string) :=
  if truthy (row_get row "latitude") && truthy (row_get row "longitude") then
    nearest_region_by_coords (row_get row "latitude") (row_get row "longitude")
  else city_label row.

(** ** Timestamps

    A pandas [Timestamp] is a count of nanoseconds since 1970-01-01 (a
    Thursday) on the wall clock it is localised to; [hour] and [weekday]
    (Monday is 0) are read off that count. *)

Record Timestamp : Type := { wall_ns : Z }.

Definition ns_per_hour : Z := 3600000000000.
Definition ns_per_day : Z := 24 * ns_per_hour.

Definition hour (t : Timestamp) : Z := (wall_ns t / ns_per_hour) mod 24.
Definition weekday (t : Timestamp) : Z := (wall_ns t / ns_per_day + 3) mod 7.

(** ** Feature Builder *)

(** [normalize_rtt]: [max(0.0, min(1.0, (rtt_ms - 10) / 490))]. *)
Definition normalize_rtt (rtt_ms : pyval) : result Q :=
  d ← py_sub rtt_ms 10;
  Ok (py_max 0 (py_min 1 (fdiv d 490))).

(** The literal dict [{'high': 1.0, 'medium': 0.5, 'low': 0.25}] looked up
    with [.get(level, 0.0)]; a list or a dict is not hashable. *)
Definition suspicion_lookup (level : pyval) : result Q :=
  match level with
  | VStr s =>
      Ok (if String.eqb s "high" then 1
          else if String.eqb s "medium" then 1 # 2
          else if String.eqb s "low" then 1 # 4
          else 0)%Q
  | VList _ | VDict _ => Raise TypeError
  | _ => Ok 0%Q
  end.

(** The branch on [correlation] (lines 132-140): four features computed
    from the sub-object, or four zeros when it is falsy. *)
Definition correlation_features (correlation : pyval) : result (list pyval) :=
  if truthy correlation then
    average_deviation ← py_get correlation "average_deviation" (VInt 0);
    deviation ← normalize_rtt average_deviation;
    pattern_similarity ← py_get correlation "pattern_similarity" (VInt 0);
    matching_asns ← py_get correlation "matching_asns" (VInt 0);
    asns ← py_truediv matching_asns 50;
    visit_count ← py_get correlation "visit_count" (VInt 0);
    has_history ← py_gt visit_count 0;
    Ok [VFloat deviation; pattern_similarity; VFloat asns;
        VFloat (if has_history : bool then 1 else 0)]
  else Ok [VFloat 0; VFloat 0; VFloat 0; VFloat 0].

Definition feature_names : list string :=
  [ "correlation_average_deviation";
    "correlation_pattern_similarity";
    "correlation_matching_asns";
    "correlation_has_history";
    "timezone_offset_hours";
    "is_vpn_or_proxy";
    "suspicion_score";
    "hour_of_day";
    "weekday";
    "locale_score" ].

Section Pipeline.

(** [pandas.to_datetime], a library function: it parses a value into a
    [Timestamp] or raises. *)
Variable to_datetime : pyval → result Timestamp.

(** [now] is what [pd.Timestamp.now()] reads when the function is
    called.  The result stands for [np.array(features)]: the values
    appended to [features], in order. *)
Definition build_features (now : Timestamp) (row : gmap string pyval)
    : result (list pyval) :=
  (* ASN correlation features *)
  let correlation := default (VDict ∅) (row !! "asn_correlation") in
  block ← correlation_features correlation;
  (* Timezone (normalized hours) *)
  let tz_minutes := default (VInt 0) (row !! "timezone_offset_minutes") in
  tz_hours ← (if truthy tz_minutes then py_truediv tz_minutes 60 else Ok 0%Q);
  let tz_normalized := py_max (-1) (py_min 1 (fdiv tz_hours 12)) in
  (* VPN detection *)
  let vpn := default (VDict ∅) (row !! "vpn_detection") in
  is_likely_vpn ← py_get vpn "is_likely_vpn" (VBool false);
  let vpn_score := (if truthy is_likely_vpn then 1 else 0)%Q in
  (* Suspicion level *)
  suspicion_level ← py_get vpn "suspicion_level" (VStr "low");
  suspicion_score ← suspicion_lookup suspicion_level;
  (* Time features *)
  timestamp ←
    match row !! "timestamp" with
    | Some v => to_datetime v
    | None => Ok now
    end;
  let hour_of_day := fdiv (inject_Z (hour timestamp)) 24 in
  let day_of_week := fdiv (inject_Z (weekday timestamp)) 7 in
  (* Locale feature *)
  let locale := default (VStr "") (row !! "locale") in
  long_locale ←
    (if truthy locale then n ← py_len locale; Ok (2 <? n)%nat else Ok false);
  let locale_score := (if long_locale : bool then 1 # 2 else 0)%Q in
  Ok (block ++ [VFloat tz_normalized; VFloat vpn_score; VFloat suspicion_score;
                VFloat hour_of_day; VFloat day_of_week; VFloat locale_score]).

(** *** Label encoding

    [sklearn.preprocessing.LabelEncoder]: [fit] stores the sorted
    distinct labels in [classes_], [transform] replaces each label by
    its position there. *)

Definition string_le (a b : string) : Prop := String.leb a b = true.

#[global] Instance string_le_dec a b : Decision (string_le a b).
Proof. unfold string_le. apply _. Defined.

Record LabelEncoder : Type := { classes_ : list string }.

Definition fit (labels : list string) : LabelEncoder :=
  {| classes_ := merge_sort string_le (remove_dups labels) |}.

(** The position of a fitted label; [fit_transform] never meets another. *)
Definition class_index (le : LabelEncoder) (label : string) : nat :=
  default 0%nat (fst <$> list_find (λ c, c = label) (classes_ le)).

Definition transform (le : LabelEncoder) (labels : list string) : list nat :=
  class_index le <$> labels.

(** *** Dataset Assembler *)

(** [clock i] is what [pd.Timestamp.now()] reads while record [i] of the
    corpus is processed. *)
Variable clock : nat → Timestamp.




(** *** Effects: training, export, metadata *)

Record region_detail : Type := {
  regionId : string;
  regionName : string;
  countryCode : string;
  latitude : Q;
  longitude : Q
}.

Record metadata : Type := {
  featureCount : nat;
  featureNames : list string;
  classIndexToRegionId : gmap string string;
  regions : list region_detail
}.

Inductive event : Type :=
  | EvLogError (msg : string)
  | EvTrain (X : list (list pyval)) (y : list nat)
  | EvWriteModel (path : string)
  | EvWriteMetadata (path : string) (md : metadata).

(** A computation that raises or returns, and extends the trace of
    effects the run has had so far. *)
Definition io (A : Type) : Type := list event → list event * result A.


Definition emit (e : event) : io unit := λ tr, (tr ++ [e], Ok ()).
Definition lift {A} (r : result A) : io A := λ tr, (tr, r).


(** The libraries behind [train] and [export_onnx]: the stratified split,
    boosting and evaluation as one fallible fit, and the converter. *)
Variable Booster : Type.
Variable lgb_fit : list (list pyval) → list nat → Q → nat → result Booster.
Variable OnnxModel : Type.
Variable convert_lightgbm : Booster → nat → result OnnxModel.

Variable output_dir : string.



(** [{str(idx): region for idx, region in enumerate(classes)}]: built
    left to right, a later item replacing an earlier one under the same
    key. *)
Definition class_map (classes : list string) : gmap string string :=
  foldl (λ m '(idx, region), <[pretty idx := region]> m) ∅
    (imap (λ (idx : nat) region, (idx, region)) classes).

Definition catalog_lookup (region_id : string) : option region_meta :=
  (λ hit : nat * (string * region_meta), hit.2.2) <$>
    list_find (λ item, item.1 = region_id) REGION_DEFINITIONS.

Definition region_details (classes : list string) : list region_detail :=
  omap (λ region_id,
          meta ← catalog_lookup region_id;
          Some {| regionId := region_id;
                  regionName := name meta;
                  countryCode := country meta;
                  latitude := lat meta;
                  longitude := lon meta |}) classes.

Definition save_metadata (le : LabelEncoder) (feature_count : nat)
    : io unit :=
  if decide (length feature_names = feature_count) then
    emit (EvWriteMetadata (output_dir +:+ "/inferred_region-metadata.json")
            {| featureCount := feature_count;
               featureNames := feature_names;
               classIndexToRegionId := class_map (classes_ le);
               regions := region_details (classes_ le) |})
  else lift (Raise AssertionError).


End Pipeline.

(** A stand-in for the parser, used to run examples: integer nanosecond
    epochs are read as pandas reads them, nothing else is parsed. *)
Definition epoch_to_datetime (v : pyval) : result Timestamp :=
  match v with
  | VInt n => Ok {| wall_ns := n |}
  | _ => Raise ValueError
  end.

(** 2024-01-01 10:00:00, a Monday. *)
Definition monday_10h : Timestamp := {| wall_ns := 1704103200000000000 |}.

(** ** Vocabulary of the statements *)

(** ASCII whitespace as [str.isspace] and [str.strip] see it. *)
Definition is_space (c : ascii) : bool :=
  let n := nat_of_ascii c in
  ((9 <=? n)%nat && (n <=? 13)%nat) || ((28 <=? n)%nat && (n <=? 32)%nat).

Fixpoint whitespace_only (s : string) : bool :=
  match s with
  | EmptyString => true
  | String c s' => is_space c && whitespace_only s'
  end.

(** Every whitespace character of [hay] is a plain space followed by a
    character that is not whitespace, or by the end of the string. *)
Fixpoint single_spaced (hay : string) : bool :=
  match hay with
  | EmptyString => true
  | String c rest =>
      (negb (is_space c) ||
       (Ascii.eqb c " " &&
        match rest with
        | EmptyString => true
        | String c' _ => negb (is_space c')
        end)) && single_spaced rest
  end.















(** Strict lexicographic order on identifiers. *)
Definition string_lt (a b : string) : Prop := String.ltb a b = true.

(** Reading a class map back: the values under the keys ["0"], ["1"], ...
    up to the size of the map. *)
Definition read_classes (m : gmap string string) : option (list string) :=
  mapM (λ idx : nat, m !! pretty idx) (seq 0 (size m)).




(** ** Vocabulary of the further properties *)


(** [str.upper] on ASCII. *)
Definition upper_ascii (c : ascii) : ascii :=
  let n := nat_of_ascii c in
  if (97 <=? n)%nat && (n <=? 122)%nat then ascii_of_nat (n - 32) else c.

Fixpoint upper (s : string) : string :=
  match s with
  | EmptyString => EmptyString
  | String c s' => String (upper_ascii c) (upper s')
  end.

(** The fields the Label Extractor reads, and those the Feature Builder
    reads. *)
Definition label_keys : list string :=
  ["latitude"; "longitude"; "geoip_city"; "asn_inferred_city"].

Definition feature_keys : list string :=
  ["asn_correlation"; "timezone_offset_minutes"; "vpn_detection"; "timestamp";
   "locale"].






(** ** Loading the corpus ([load_data])

    The loop over the lines of the input file.  [json.loads] is a library
    function: it decodes a line or raises [JSONDecodeError], which the loop
    catches.  The result is the list [records] from which the data frame
    is built. *)

Section Loader.

Variable json_loads : string → option pyval.



End Loader.

(** ** Request signing ([test-zkp.py])

    [compute_sha384_hash] composes library calls (SHA-384, then base64) and
    is a parameter, as are the key loader and the ECDSA signer behind
    [sign_request]; [sign] stands for one call of the signer, whose nonce
    is drawn by the library. *)

Section Signing.

Variable compute_sha384_hash : string → string.

(** [compute_sha384_hash(body) if body else ""]. *)
Definition body_hash (body : string) : string :=
  if String.eqb body "" then "" else compute_sha384_hash body.

(** The message that is signed:
    [f"{method}|{path}|{body_hash}|{timestamp}|{nonce}"]. *)
Definition signing_message (method path body : string) (timestamp : Z)
    (nonce : string) : string :=
  method +:+ "|" +:+ path +:+ "|" +:+ body_hash body +:+ "|" +:+
  pretty timestamp +:+ "|" +:+ nonce.

Variable PrivateKey : Type.
Variable load_private_key : string → result PrivateKey.
Variable sign : PrivateKey → string → result string.
Variable b64encode : string → string.

Definition sign_request (private_key_der_base64 method path body : string)
    (timestamp : Z) (nonce : string) : result string :=
  private_key ← load_private_key private_key_der_base64;
  signature ← sign private_key (signing_message method path body timestamp nonce);
  Ok (b64encode signature).

(** The script body under [if __name__ == "__main__"]: [argv] is
    [sys.argv], and [int] is Python's [int] on a string, [None] standing
    for [ValueError]. *)
Inductive cli_outcome : Type :=
  | UsageExit1
  | Printed (signature : string)
  | Failed (e : exn).

Variable int : string → option Z.

Definition argv_get (argv : list string) (i : nat) : result string :=
  match argv !! i with
  | Some arg => Ok arg
  | None => Raise IndexError
  end.

Definition zkp_main (argv : list string) : cli_outcome :=
  if (length argv <? 6)%nat then UsageExit1
  else
    let outcome :=
      private_key ← argv_get argv 1;
      method ← argv_get argv 2;
      path ← argv_get argv 3;
      body ← argv_get argv 4;
      timestamp_arg ← argv_get argv 5;
      timestamp ← match int timestamp_arg with
                  | Some n => Ok n
                  | None => Raise ValueError
                  end;
      nonce ← argv_get argv 6;
      sign_request private_key method path body timestamp nonce in
    match outcome with
    | Ok signature => Printed signature
    | Raise e => Failed e
    end.

End Signing.

(** A string without the field separator of the signed message. *)
Fixpoint no_bar (s : string) : bool :=
  match s with
  | EmptyString => true
  | String c s' => negb (Ascii.eqb c "|") && no_bar s'
  end.

(** * Properties *)

(** ** Scenarios of the specification *)

Example berlin_by_coords :
  extract_label {[ "latitude" := VFloat (5252 # 100);
                   "longitude" := VFloat (1340 # 100) ]} = Ok (Some "eu-ber").
Proof. vm_compute. reflexivity. Qed.

Example tokyo_by_city :
  extract_label {[ "geoip_city" := VStr "Tokyo" ]} = Ok (Some "ap-tok").
Proof. vm_compute. reflexivity. Qed.

Example features_scenario :
  build_features epoch_to_datetime monday_10h
    {[ "asn_correlation" :=
         VDict {[ "matching_asns" := VInt 25; "visit_count" := VInt 3 ]};
       "vpn_detection" :=
         VDict {[ "is_likely_vpn" := VBool true;
                  "suspicion_level" := VStr "high" ]} ]}
  = Ok [VFloat 0; VInt 0; VFloat (1 # 2); VFloat 1; VFloat 0; VFloat 1;
        VFloat 1; VFloat (5 # 12); VFloat 0; VFloat 0].
Proof. vm_compute. reflexivity. Qed.

(** ** Numbers and distances *)

Lemma Qltb_lt (a b : Q) : Qltb a b = true ↔ (a < b)%Q.
Proof.
  unfold Qltb. rewrite negb_true_iff, <- not_true_iff_false, Qle_bool_iff.
  split; [apply Qnot_le_lt | apply Qlt_not_le].
Qed.





Lemma radicand_nonneg (a b : Q) : (0 <= fadd (fsquare a) (fsquare b))%Q.
Proof.
  unfold fadd, fsquare. rewrite !Qred_correct. nra.
Qed.

(** The symbolic comparisons are the comparisons of the real distances. *)
Lemma dist_ltb_sqrt (x y : Q) :
  (0 <= x)%Q → (0 <= y)%Q →
  dist_ltb (DSqrt x) (DSqrt y) = true ↔ (sqrt (Q2R x) < sqrt (Q2R y))%R.
Proof.
  intros Hx Hy. simpl. rewrite Qltb_lt.
  assert (0 <= Q2R x)%R as Hx' by (replace 0%R with (Q2R 0) by lra; by apply Qle_Rle).
  assert (0 <= Q2R y)%R as Hy' by (replace 0%R with (Q2R 0) by lra; by apply Qle_Rle).
  split.
  - intros Hlt. apply sqrt_lt_1; [done | done | by apply Qlt_Rlt].
  - intros Hlt. apply Rlt_Qlt. by apply sqrt_lt_0.
Qed.

Lemma dist_lt_const_sqrt (x c : Q) :
  (0 <= x)%Q → (0 <= c)%Q →
  dist_lt_const (DSqrt x) c = true ↔ (sqrt (Q2R x) < Q2R c)%R.
Proof.
  intros Hx Hc. simpl. rewrite Qltb_lt.
  assert (0 <= Q2R x)%R as Hx' by (replace 0%R with (Q2R 0) by lra; by apply Qle_Rle).
  assert (0 <= Q2R c)%R as Hc' by (replace 0%R with (Q2R 0) by lra; by apply Qle_Rle).
  assert (Q2R c = sqrt (Q2R (c * c))) as Hroot
    by (rewrite Q2R_mult, sqrt_square; done).
  assert (0 <= Q2R (c * c))%R as Hcc
    by (rewrite Q2R_mult; by apply Rmult_le_pos).
  rewrite Hroot. split.
  - intros Hlt. apply sqrt_lt_1; [done | done | by apply Qlt_Rlt].
  - intros Hlt. apply Rlt_Qlt. by apply sqrt_lt_0.
Qed.

(** ** Label Extractor *)





Lemma city_step_ext row1 row2 key :
  row_get row1 key = row_get row2 key → city_step row1 key = city_step row2 key.
Proof. unfold city_step. by intros ->. Qed.

Lemma city_label_ext row1 row2 :
  row_get row1 "geoip_city" = row_get row2 "geoip_city" →
  row_get row1 "asn_inferred_city" = row_get row2 "asn_inferred_city" →
  city_label row1 = city_label row2.
Proof.
  intros Hgeo Hasn. unfold city_label.
  by rewrite (city_step_ext _ _ _ Hgeo), (city_step_ext _ _ _ Hasn).
Qed.

Lemma row_get_insert row key v : row_get (<[key := v]> row) key = v.
Proof. unfold row_get. by rewrite lookup_insert_eq. Qed.

Lemma row_get_insert_ne row key key' v :
  key ≠ key' → row_get (<[key := v]> row) key' = row_get row key'.
Proof. intros Hne. unfold row_get. by rewrite lookup_insert_ne. Qed.

Lemma row_get_delete row key : row_get (delete key row) key = VNone.
Proof. unfold row_get. by rewrite lookup_delete_eq. Qed.

Lemma row_get_delete_ne row key key' :
  key ≠ key' → row_get (delete key row) key' = row_get row key'.
Proof. intros Hne. unfold row_get. by rewrite lookup_delete_ne. Qed.

(** *** Whitespace against the display names *)

Lemma lower_ascii_space c : is_space c = true → lower_ascii c = c.
Proof.
  destruct c as [[] [] [] [] [] [] [] []]; try reflexivity; discriminate.
Qed.

Lemma lower_whitespace s : whitespace_only s = true → lower s = s.
Proof.
  induction s as [| c s IH]; simpl; [done |].
  intros [Hc Hs]%andb_true_iff. by rewrite lower_ascii_space, IH.
Qed.

(** A run of whitespace other than one plain space does not start a
    suffix of a single-spaced string. *)
Lemma starts_with_whitespace s hay :
  single_spaced hay = true → whitespace_only s = true →
  s ≠ "" → s ≠ " " → starts_with s hay = false.
Proof.
  destruct s as [| c s']; [done |]. destruct hay as [| b rest]; [done |].
  cbn [single_spaced whitespace_only starts_with].
  intros [Hb _]%andb_true_iff [Hc Hs']%andb_true_iff _ Hne.
  destruct (Ascii.eqb_spec c b) as [<- | Hcb]; [| done].
  rewrite Hc in Hb. cbn [negb orb andb] in *.
  apply andb_true_iff in Hb as [->%Ascii.eqb_eq Hnext].
  destruct s' as [| c' s'']; [done |].
  destruct rest as [| b' rest']; [done |].
  cbn [whitespace_only starts_with] in *.
  apply andb_true_iff in Hs' as [Hc' _].
  destruct (Ascii.eqb_spec c' b') as [<- | Hcb']; [| done].
  by rewrite Hc' in Hnext.
Qed.

Lemma str_in_whitespace s hay :
  single_spaced hay = true → whitespace_only s = true →
  s ≠ "" → s ≠ " " → str_in s hay = false.
Proof.
  intros Hhay Hs Hne Hne'. induction hay as [| b rest IH].
  - destruct s; [done | reflexivity].
  - cbn [str_in]. rewrite starts_with_whitespace by done.
    cbn [orb]. apply IH.
    cbn [single_spaced] in Hhay. by apply andb_true_iff in Hhay as [_ ?].
Qed.

Lemma catalog_names_single_spaced :
  Forall (λ item, single_spaced (lower (name item.2)) = true) REGION_DEFINITIONS.
Proof. repeat constructor. Qed.

Lemma find_city_loop_whitespace regions s :
  Forall (λ item, single_spaced (lower (name item.2)) = true) regions →
  whitespace_only s = true → s ≠ "" → s ≠ " " →
  find_city_loop regions s = None.
Proof.
  intros Hnames Hs Hne Hne'.
  induction Hnames as [| [region_id meta] rest Hname _ IH]; [done |].
  cbn [find_city_loop]. by rewrite str_in_whitespace.
Qed.

Lemma city_step_blank row key s :
  whitespace_only s = true → s ≠ " " →
  city_step (<[key := VStr s]> row) key = Ok None.
Proof.
  intros Hs Hne. unfold city_step. rewrite row_get_insert.
  cbn [truthy]. destruct (String.eqb_spec s "") as [-> | Hempty]; [done |].
  cbn [negb find_region_by_city mbind result_bind].
  rewrite lower_whitespace by done.
  by rewrite (find_city_loop_whitespace _ _ catalog_names_single_spaced).
Qed.

Lemma city_step_absent row key : city_step (delete key row) key = Ok None.
Proof. unfold city_step. by rewrite row_get_delete. Qed.

(** *** Claims about the Label Extractor *)

(** C2 (the code departs from the claim).  Sydney lies more than 10
    degrees, and less than 100, from the Tokyo centroid, its nearest
    catalog region; [nearest_region_by_coords] compares the distance itself
    with 100 and returns ["ap-tok"], where a 10-degree gate returns no
    region. *)
Theorem nearest_region_accepts_beyond_ten_degrees :
  let lat_v := VFloat (-338688 # 10000) in
  let lon_v := VFloat (1512093 # 10000) in
  nearest_region_by_coords lat_v lon_v = Ok (Some "ap-tok")
  ∧ ∃ r, nearest_loop REGION_DEFINITIONS lat_v lon_v None DInf
           = Ok (Some "ap-tok", DSqrt r)
         ∧ (10 < sqrt (Q2R r) < 100)%R.
Proof.
  split; [vm_compute; reflexivity |].
  exists (2485058753 # 500000)%Q. split; [vm_compute; reflexivity |].
  assert (Q2R (2485058753 # 500000) = 2485058753 / 500000)%R as ->
    by (unfold Q2R; simpl; lra).
  split.
  - rewrite <- (sqrt_square 10) at 1 by lra. apply sqrt_lt_1; lra.
  - rewrite <- (sqrt_square 100) by lra. apply sqrt_lt_1; lra.
Qed.

(** C3 (the code departs from the claim).  A record far from every region
    that also names Tokyo as its geo-IP city gets no label: the coordinate
    step returns whatever [nearest_region_by_coords] returns, [None]
    included, and the city steps, which find ["ap-tok"], are not
    reached. *)
Theorem coordinates_beyond_threshold_return_none :
  let row : gmap string pyval :=
    {[ "latitude" := VFloat (-7785 # 100);
       "longitude" := VFloat (16667 # 100);
       "geoip_city" := VStr "Tokyo" ]} in
  nearest_region_by_coords (row_get row "latitude") (row_get row "longitude")
    = Ok None
  ∧ city_label row = Ok (Some "ap-tok")
  ∧ extract_label row = Ok None.
Proof. repeat split; vm_compute; reflexivity. Qed.




(** C5 (as stated, refuted).  A geo-IP city made of one space is not
    treated as absent: the space occurs in "amsterdam metro", so the record
    is labelled ["eu-ams"], while the same record without the field has no
    label. *)
Lemma single_space_city_matches_amsterdam :
  extract_label {[ "geoip_city" := VStr " " ]} = Ok (Some "eu-ams")
  ∧ extract_label (delete "geoip_city" {[ "geoip_city" := VStr " " ]}) = Ok None.
Proof. split; vm_compute; reflexivity. Qed.

(** C5 (amended).  For every record, a geo-IP or ASN-inferred city that is
    the empty string, or a whitespace-only string other than the single
    space, is treated as absent: the Label Extractor returns exactly what
    it returns on the record with that field removed. *)
Theorem blank_city_treated_as_absent (row : gmap string pyval) (key s : string) :
  key = "geoip_city" ∨ key = "asn_inferred_city" →
  whitespace_only s = true → s ≠ " " →
  extract_label (<[key := VStr s]> row) = extract_label (delete key row).
Proof.
  intros Hkey Hs Hne. unfold extract_label.
  assert (key ≠ "latitude" ∧ key ≠ "longitude") as [Hklat Hklon]
    by (destruct Hkey as [-> | ->]; done).
  rewrite !row_get_insert_ne, !row_get_delete_ne by done.
  destruct (truthy (row_get row "latitude") && truthy (row_get row "longitude"));
    [done |].
  unfold city_label. destruct Hkey as [-> | ->].
  - rewrite city_step_blank, city_step_absent by done.
    cbn [mbind result_bind]. f_equal.
    apply city_step_ext. by rewrite row_get_insert_ne, row_get_delete_ne.
  - rewrite (city_step_ext (<["asn_inferred_city" := VStr s]> row)
               (delete "asn_inferred_city" row) "geoip_city")
      by (by rewrite row_get_insert_ne, row_get_delete_ne).
    by rewrite city_step_blank, city_step_absent.
Qed.

Lemma blank_city_treated_as_absent_witness :
  let row : gmap string pyval := {[ "asn_inferred_city" := VStr "Paris" ]} in
  extract_label (<["geoip_city" := VStr "  "]> row)
  = extract_label (delete "geoip_city" row).
Proof.
  intros row. apply (blank_city_treated_as_absent row "geoip_city" "  ").
  - left. reflexivity.
  - reflexivity.
  - discriminate.
Defined.

(** C10.  For every record whose latitude or longitude is falsy (absent,
    null, zero, ...), the Label Extractor returns what the city steps
    return, the nearest-region computation taking no part; this is also
    what it returns once both coordinates are removed from the record. *)
Theorem falsy_coordinates_go_to_city_signals (row : gmap string pyval) :
  truthy (row_get row "latitude") = false
  ∨ truthy (row_get row "longitude") = false →
  extract_label row = city_label row
  ∧ extract_label row
    = extract_label (delete "latitude" (delete "longitude" row)).
Proof.
  intros Hfalsy.
  assert (extract_label row = city_label row) as Hcity.
  { unfold extract_label. destruct Hfalsy as [-> | ->]; [done |].
    by rewrite andb_false_r. }
  split; [done |]. rewrite Hcity.
  unfold extract_label. rewrite row_get_delete. cbn [truthy andb].
  apply city_label_ext; by rewrite !row_get_delete_ne.
Qed.

Lemma falsy_coordinates_go_to_city_signals_witness :
  let row : gmap string pyval :=
    {[ "latitude" := VFloat 0; "longitude" := VFloat (1340 # 100);
       "geoip_city" := VStr "Berlin" ]} in
  extract_label row = city_label row
  ∧ extract_label row
    = extract_label (delete "latitude" (delete "longitude" row)).
Proof.
  intros row. apply (falsy_coordinates_go_to_city_signals row).
  left. vm_compute. reflexivity.
Defined.

(** ** Feature Builder *)

Lemma bind_Ok_inv {A B} (m : result A) (f : A → result B) (b : B) :
  (m ≫= f) = Ok b → ∃ a, m = Ok a ∧ f a = Ok b.
Proof. destruct m as [a | e]; [by exists a | discriminate]. Qed.

Tactic Notation "bind_inv" hyp(H) "as" ident(x) ident(Hx) :=
  apply bind_Ok_inv in H as (x & Hx & H); cbv beta in H.







Section FeatureBuilder.

Variable to_datetime : pyval → result Timestamp.




End FeatureBuilder.

(** *** Claims about the Feature Builder *)










(** ** Label encoding and the class map *)

Lemma string_compare_lexical (a b : string) :
  String.compare a b = String_as_OT.compare a b.
Proof.
  revert b. induction a as [| x a IH]; intros [| y b]; cbn; [done .. |].
  unfold Ascii_as_OT.compare, Ascii.compare. rewrite IH.
  by destruct (N.compare (N_of_ascii x) (N_of_ascii y)).
Qed.

Lemma string_le_lt_eq (a b : string) :
  string_le a b ↔ String_as_OT.lt a b ∨ a = b.
Proof.
  unfold string_le, String.leb, String_as_OT.lt.
  rewrite string_compare_lexical.
  destruct (String_as_OT.compare_spec a b) as [Heq | Hlt | Hgt].
  - split; [by right | done].
  - split; [by left | done].
  - split; [done |]. intros [Hlt | ->]; [done |].
    by apply (irreflexivity String_as_OT.lt) in Hgt.
Qed.

Lemma string_lt_le_ne (a b : string) : string_lt a b ↔ string_le a b ∧ a ≠ b.
Proof.
  unfold string_lt, string_le, String.ltb, String.leb.
  destruct (String.compare a b) eqn:Hcmp.
  - apply String.compare_eq_iff in Hcmp. split; [done |]. by intros [_ ?].
  - split; [| done]. intros _. split; [done |]. intros ->.
    rewrite string_compare_lexical in Hcmp.
    by apply (irreflexivity String_as_OT.lt) in Hcmp.
  - split; [done |]. by intros [? _].
Qed.

#[local] Instance string_le_total : Total string_le.
Proof. intros a b. apply String.leb_total. Qed.

#[local] Instance string_le_trans : Transitive string_le.
Proof.
  intros a b c. rewrite !string_le_lt_eq.
  intros [Hab | ->] [Hbc | ->]; eauto.
  left. by etransitivity.
Qed.

(** [classes_] after [fit]: strictly increasing, and with exactly the
    labels that were seen. *)
Lemma fit_sorted (labels : list string) :
  StronglySorted string_lt (classes_ (fit labels)).
Proof.
  cbn [fit classes_].
  assert (NoDup (merge_sort string_le (remove_dups labels))) as Hnodup.
  { rewrite merge_sort_Permutation. apply NoDup_remove_dups. }
  assert (StronglySorted string_le (merge_sort string_le (remove_dups labels)))
    as Hsorted by apply (StronglySorted_merge_sort _).
  induction Hsorted as [| a l Hl IH Hall]; [constructor |].
  apply NoDup_cons in Hnodup as [Hnotin Hnodup].
  constructor; [by apply IH |].
  apply Forall_forall. intros b Hb. apply string_lt_le_ne. split.
  - by eapply Forall_forall in Hall.
  - intros ->. done.
Qed.

Lemma fit_elements (labels : list string) (label : string) :
  label ∈ classes_ (fit labels) ↔ label ∈ labels.
Proof. cbn [fit classes_]. by rewrite merge_sort_Permutation, elem_of_remove_dups. Qed.

Lemma class_index_lookup (le : LabelEncoder) (label : string) :
  label ∈ classes_ le → classes_ le !! class_index le label = Some label.
Proof.
  intros Hin. unfold class_index.
  destruct (list_find_elem_of (λ c, c = label) (classes_ le) label Hin eq_refl)
    as [[i c] Hfind].
  rewrite Hfind. cbn.
  by apply list_find_Some in Hfind as (Hi & -> & _).
Qed.

Lemma class_map_snoc (classes : list string) (region : string) :
  class_map (classes ++ [region])
  = <[pretty (length classes) := region]> (class_map classes).
Proof.
  unfold class_map. rewrite imap_app, foldl_app. cbn. by rewrite Nat.add_0_r.
Qed.

(** The entry under the key [str(idx)] is the class of index [idx]. *)
Lemma class_map_lookup (classes : list string) (idx : nat) :
  class_map classes !! pretty idx = classes !! idx.
Proof.
  induction classes as [| region classes IH] using rev_ind; [done |].
  rewrite class_map_snoc.
  destruct (decide (idx = length classes)) as [-> | Hne].
  - rewrite lookup_insert_eq. by rewrite list_lookup_middle.
  - rewrite lookup_insert_ne by (intros Heq; by apply (inj pretty) in Heq).
    rewrite IH. destruct (decide (idx < length classes)%nat).
    + by rewrite lookup_app_l.
    + rewrite !lookup_ge_None_2; [done | | lia].
      rewrite length_app. cbn. lia.
Qed.

Lemma class_map_size (classes : list string) :
  size (class_map classes) = length classes.
Proof.
  induction classes as [| region classes IH] using rev_ind; [done |].
  rewrite class_map_snoc, map_size_insert_None, length_app; [cbn; lia |].
  rewrite class_map_lookup. by apply lookup_ge_None_2.
Qed.

Lemma read_classes_class_map (classes : list string) :
  read_classes (class_map classes) = Some classes.
Proof.
  unfold read_classes. rewrite class_map_size.
  apply mapM_Some. apply Forall2_same_length_lookup_2.
  - by rewrite length_seq.
  - intros i idx region Hidx Hregion.
    apply lookup_seq in Hidx as [-> _]. by rewrite class_map_lookup.
Qed.

(** C9.  For every list of observed labels, the classes of the fitted
    encoder are the distinct labels in strictly increasing lexicographic
    order, so that class indices follow that order; the class map that
    [save_metadata] writes holds class [idx] under the key [str(idx)];
    read back in index order it is the sorted class list, and decoding the
    encoded labels through it gives the labels back. *)
Theorem label_encoding_sorted_and_round_trip (labels : list string) :
  let le := fit labels in
  StronglySorted string_lt (classes_ le)
  ∧ (∀ label, label ∈ classes_ le ↔ label ∈ labels)
  ∧ (∀ output_dir tr, ∃ path md,
       save_metadata output_dir le (length feature_names) tr
       = (tr ++ [EvWriteMetadata path md], Ok ())
       ∧ classIndexToRegionId md = class_map (classes_ le))
  ∧ (∀ idx : nat, class_map (classes_ le) !! pretty idx = classes_ le !! idx)
  ∧ read_classes (class_map (classes_ le)) = Some (classes_ le)
  ∧ mapM (λ idx : nat, class_map (classes_ le) !! pretty idx)
      (transform le labels) = Some labels.
Proof.
  intros le.
  split; [apply fit_sorted |]. split; [apply fit_elements |].
  split; [| split; [apply class_map_lookup |
                    split; [apply read_classes_class_map |]]].
  - intros output_dir tr. unfold save_metadata.
    rewrite decide_True by done. unfold emit. by do 2 eexists.
  - apply mapM_Some. unfold transform.
    apply Forall2_fmap_l, Forall_Forall2_diag, Forall_forall.
    intros label Hlabel. unfold compose. rewrite class_map_lookup.
    apply class_index_lookup. by apply fit_elements.
Qed.

(** ** Dataset Assembler and the run *)

Section Run.

Variable to_datetime : pyval → result Timestamp.
Variable clock : nat → Timestamp.
Variable Booster : Type.
Variable lgb_fit : list (list pyval) → list nat → Q → nat → result Booster.
Variable OnnxModel : Type.
Variable convert_lightgbm : Booster → nat → result OnnxModel.
Variable output_dir : string.







End Run.



(** * Further properties of the code *)

(** ** The nearest-region search *)










(** ** City matching *)

Lemma starts_with_spec (p s : string) :
  starts_with p s = true ↔ ∃ post, s = p +:+ post.
Proof.
  revert s. induction p as [| a p IH]; intros s; cbn.
  - split; [by exists s | done].
  - destruct s as [| b s]; cbn.
    + split; [done | by intros [post ?]].
    + rewrite andb_true_iff, Ascii.eqb_eq, IH. split.
      * intros [-> [post ->]]. by exists post.
      * intros [post [= -> ->]]. split; [done | by exists post].
Qed.

(** [str_in] is substring containment. *)
Lemma str_in_spec (needle hay : string) :
  str_in needle hay = true ↔ ∃ pre post, hay = pre +:+ needle +:+ post.
Proof.
  induction hay as [| b hay IH]; cbn [str_in]; rewrite orb_true_iff, starts_with_spec.
  - split.
    + intros [[post ->] | ?]; [by exists "", post | done].
    + intros (pre & post & H). left. exists post.
      destruct pre; [done | discriminate].
  - rewrite IH. split.
    + intros [[post ->] | (pre & post & ->)]; [by exists "", post |].
      by exists (String b pre), post.
    + intros (pre & post & H). destruct pre as [| c pre]; cbn in H.
      * left. by exists post.
      * right. injection H as -> ->. by exists pre, post.
Qed.

Lemma find_city_loop_first regions s id :
  find_city_loop regions s = Some id
  ↔ ∃ before meta after,
      regions = before ++ (id, meta) :: after
      ∧ str_in s (lower (name meta)) = true
      ∧ Forall (λ item, str_in s (lower (name item.2)) = false) before.
Proof.
  induction regions as [| [id0 m0] rest IH]; cbn [find_city_loop].
  - split; [done |]. intros (before & meta & after & H & _). by destruct before.
  - destruct (str_in s (lower (name m0))) eqn:Hin.
    + split.
      * intros [= <-]. by exists [], m0, rest.
      * intros (before & meta & after & H & Hmeta & Hbefore).
        destruct before as [| item before]; cbn in H; simplify_eq; [done |].
        apply Forall_cons_1 in Hbefore as [Hitem _]. cbn in Hitem. congruence.
    + rewrite IH. split.
      * intros (before & meta & after & -> & Hmeta & Hbefore).
        exists ((id0, m0) :: before), meta, after. repeat split; try done.
        by constructor.
      * intros (before & meta & after & H & Hmeta & Hbefore).
        destruct before as [| item before]; cbn in H; simplify_eq; [congruence |].
        apply Forall_cons_1 in Hbefore as [_ Hbefore].
        by exists before, meta, after.
Qed.

(** X4.  [find_region_by_city] returns a region exactly when the
    lower-cased city occurs inside the lower-cased display name of a
    catalog entry and inside none of the names listed before it: substring
    matching, the first match in catalog order winning. *)
Theorem find_region_by_city_first_match (city id : string) :
  find_region_by_city (VStr city) = Ok (Some id)
  ↔ ∃ before meta after pre post,
      REGION_DEFINITIONS = before ++ (id, meta) :: after
      ∧ lower (name meta) = pre +:+ lower city +:+ post
      ∧ Forall (λ item, ∀ pre' post',
                  lower (name item.2) ≠ pre' +:+ lower city +:+ post') before.
Proof.
  cbn [find_region_by_city]. split.
  - intros Hok.
    assert (find_city_loop REGION_DEFINITIONS (lower city) = Some id) as H
      by congruence.
    apply find_city_loop_first in H
      as (before & meta & after & Hsplit & Hin & Hbefore).
    apply str_in_spec in Hin as (pre & post & Hname).
    exists before, meta, after, pre, post. repeat split; try done.
    eapply Forall_impl; [exact Hbefore |]. intros item Hitem pre' post' Hname'.
    assert (str_in (lower city) (lower (name item.2)) = true) as Hyes
      by (apply str_in_spec; by exists pre', post').
    congruence.
  - intros (before & meta & after & pre & post & Hsplit & Hname & Hbefore).
    f_equal. apply find_city_loop_first.
    exists before, meta, after. repeat split; try done.
    + apply str_in_spec. by exists pre, post.
    + eapply Forall_impl; [exact Hbefore |]. intros item Hitem.
      apply not_true_is_false. intros (pre' & post' & Hname')%str_in_spec.
      by eapply Hitem.
Qed.

Lemma lower_upper_ascii c : lower_ascii (upper_ascii c) = lower_ascii c.
Proof. by destruct c as [[] [] [] [] [] [] [] []]. Qed.

Lemma lower_lower_ascii c : lower_ascii (lower_ascii c) = lower_ascii c.
Proof. by destruct c as [[] [] [] [] [] [] [] []]. Qed.

Lemma lower_upper s : lower (upper s) = lower s.
Proof. induction s as [| c s IH]; cbn; [done |]. by rewrite lower_upper_ascii, IH. Qed.

Lemma lower_lower s : lower (lower s) = lower s.
Proof. induction s as [| c s IH]; cbn; [done |]. by rewrite lower_lower_ascii, IH. Qed.

(** X5.  City matching ignores ASCII case: a city, its upper-case form and
    its lower-case form are matched to the same region. *)
Theorem find_region_by_city_ignores_case (city : string) :
  find_region_by_city (VStr (upper city)) = find_region_by_city (VStr city)
  ∧ find_region_by_city (VStr (lower city)) = find_region_by_city (VStr city).
Proof. cbn [find_region_by_city]. by rewrite lower_upper, lower_lower. Qed.

(** ** The signals the Label Extractor reads *)

(** X6.  The label depends on the four signal fields only: two records
    that agree on latitude, longitude, geo-IP city and ASN-inferred city
    get the same outcome of [extract_label], whatever their other fields
    are. *)
Theorem extract_label_reads_four_fields (row1 row2 : gmap string pyval) :
  (∀ key, key ∈ label_keys → row1 !! key = row2 !! key) →
  extract_label row1 = extract_label row2.
Proof.
  intros Hagree.
  assert (∀ key, key ∈ label_keys → row_get row1 key = row_get row2 key) as Hget
    by (intros key Hkey; unfold row_get; by rewrite Hagree).
  unfold extract_label.
  rewrite (Hget "latitude"), (Hget "longitude") by (unfold label_keys; set_solver).
  rewrite (city_label_ext row1 row2); [done | |];
    apply Hget; unfold label_keys; set_solver.
Qed.

Lemma extract_label_reads_four_fields_witness :
  extract_label {[ "geoip_city" := VStr "Paris" ]}
  = extract_label {[ "geoip_city" := VStr "Paris";
                     "vpn_detection" := VNone; "locale" := VInt 7 ]}.
Proof.
  apply (extract_label_reads_four_fields {[ "geoip_city" := VStr "Paris" ]}
           {[ "geoip_city" := VStr "Paris";
              "vpn_detection" := VNone; "locale" := VInt 7 ]}).
  intros key Hkey. unfold label_keys in Hkey.
  repeat (apply elem_of_cons in Hkey as [-> | Hkey]); [reflexivity .. |].
  by apply elem_of_nil in Hkey.
Defined.

(** ** More on the Feature Builder *)






Section FeatureBuilderMore.

Variable to_datetime : pyval → result Timestamp.


End FeatureBuilderMore.






(** X10.  The features depend on five fields only: two records that agree
    on the correlation object, the timezone offset, the VPN-detection
    object, the timestamp and the locale get the same outcome of
    [build_features].  In particular the coordinates and the two city
    fields, from which the label is derived, do not reach the features. *)
Theorem build_features_reads_five_fields
    (to_datetime : pyval → result Timestamp) (now : Timestamp)
    (row1 row2 : gmap string pyval) :
  (∀ key, key ∈ feature_keys → row1 !! key = row2 !! key) →
  build_features to_datetime now row1 = build_features to_datetime now row2.
Proof.
  intros Hagree. unfold build_features.
  rewrite (Hagree "asn_correlation"), (Hagree "timezone_offset_minutes"),
    (Hagree "vpn_detection"), (Hagree "timestamp"), (Hagree "locale")
    by (unfold feature_keys; set_solver).
  done.
Qed.

Lemma build_features_reads_five_fields_witness :
  build_features epoch_to_datetime monday_10h {[ "locale" := VStr "en-GB" ]}
  = build_features epoch_to_datetime monday_10h
      {[ "locale" := VStr "en-GB"; "latitude" := VFloat (5252 # 100);
         "longitude" := VFloat (1340 # 100); "geoip_city" := VStr "Berlin" ]}.
Proof.
  apply (build_features_reads_five_fields epoch_to_datetime monday_10h
           {[ "locale" := VStr "en-GB" ]}
           {[ "locale" := VStr "en-GB"; "latitude" := VFloat (5252 # 100);
              "longitude" := VFloat (1340 # 100);
              "geoip_city" := VStr "Berlin" ]}).
  intros key Hkey. unfold feature_keys in Hkey.
  repeat (apply elem_of_cons in Hkey as [-> | Hkey]); [reflexivity .. |].
  by apply elem_of_nil in Hkey.
Defined.




(** ** More on dataset assembly *)



Section Assembly.

Variable to_datetime : pyval → result Timestamp.
Variable clock : nat → Timestamp.



End Assembly.




Lemma fit_NoDup (labels : list string) : NoDup (classes_ (fit labels)).
Proof. cbn [fit classes_]. rewrite merge_sort_Permutation. apply NoDup_remove_dups. Qed.

Lemma class_index_of_class (le : LabelEncoder) (idx : nat) (label : string) :
  NoDup (classes_ le) → classes_ le !! idx = Some label →
  class_index le label = idx.
Proof.
  intros Hnodup Hidx. unfold class_index.
  assert (list_find (λ c, c = label) (classes_ le) = Some (idx, label)) as ->; [| done].
  apply list_find_Some. split; [done |]. split; [done |].
  intros j c Hj Hlt ->.
  pose proof (NoDup_lookup _ _ _ _ Hnodup Hj Hidx). lia.
Qed.

(** X13.  The encoding is dense and one-to-one: every index that
    [fit_transform] produces is below the number of classes, every index
    below the number of classes is produced, and two observed labels get
    the same index only if they are the same label. *)
Theorem label_indices_dense (labels : list string) :
  let le := fit labels in
  let y := transform le labels in
  Forall (λ idx, (idx < length (classes_ le))%nat) y
  ∧ (∀ idx, (idx < length (classes_ le))%nat → idx ∈ y)
  ∧ (∀ a b, a ∈ labels → b ∈ labels →
            class_index le a = class_index le b → a = b).
Proof.
  intros le y. split; [| split].
  - apply Forall_forall. intros idx Hidx.
    apply list_elem_of_fmap in Hidx as (label & -> & Hlabel).
    eapply lookup_lt_Some, class_index_lookup. by apply fit_elements.
  - intros idx Hidx. apply lookup_lt_is_Some in Hidx as [label Hlabel].
    apply list_elem_of_fmap. exists label. split.
    + symmetry. apply class_index_of_class; [apply fit_NoDup | done].
    + apply fit_elements. by eapply list_elem_of_lookup_2.
  - intros a b Ha Hb Heq.
    pose proof (class_index_lookup le a) as Hla.
    pose proof (class_index_lookup le b) as Hlb.
    rewrite Heq in Hla.
    rewrite Hla in Hlb by (by apply fit_elements).
    assert (Some a = Some b) as [= ->]; [| done].
    apply Hlb. by apply fit_elements.
Qed.





(** ** More on the run *)

Section RunOutcomes.

Variable to_datetime : pyval → result Timestamp.
Variable clock : nat → Timestamp.
Variable Booster : Type.
Variable lgb_fit : list (list pyval) → list nat → Q → nat → result Booster.
Variable OnnxModel : Type.
Variable convert_lightgbm : Booster → nat → result OnnxModel.
Variable output_dir : string.



End RunOutcomes.







(** ** The metadata document *)

Lemma catalog_lookup_Some region_id meta :
  catalog_lookup region_id = Some meta → (region_id, meta) ∈ REGION_DEFINITIONS.
Proof.
  unfold catalog_lookup. intros H.
  apply fmap_Some in H as ([i [id meta']] & Hfind & ->).
  apply list_find_Some in Hfind as (Hi & Hid & _). cbn in Hid. subst.
  by eapply list_elem_of_lookup_2.
Qed.

Lemma catalog_lookup_is_Some region_id :
  is_Some (catalog_lookup region_id) ↔ region_id ∈ region_ids.
Proof.
  unfold catalog_lookup, region_ids. rewrite fmap_is_Some. split.
  - intros [[i [id meta]] Hfind].
    apply list_find_Some in Hfind as (Hi & Hid & _). cbn in Hid. subst.
    apply list_elem_of_fmap. exists (region_id, meta).
    split; [done | by eapply list_elem_of_lookup_2].
  - intros Hin. apply list_elem_of_fmap in Hin as ([id meta] & -> & Hin).
    by apply (list_find_elem_of (λ item, item.1 = id) _ (id, meta)).
Qed.

Lemma region_details_ids (classes : list string) :
  regionId <$> region_details classes
  = filter (λ class, class ∈ region_ids) classes.
Proof.
  unfold region_details. induction classes as [| class classes IH]; [done |].
  cbn [omap list_omap]. rewrite filter_cons.
  destruct (catalog_lookup class) as [meta |] eqn:Hlookup; cbn [mbind option_bind].
  - rewrite decide_True by (apply catalog_lookup_is_Some; by rewrite Hlookup).
    rewrite fmap_cons. by rewrite IH.
  - rewrite decide_False; [done |].
    rewrite <- catalog_lookup_is_Some, Hlookup. by intros [? ?].
Qed.

(** X19.  The region list of the metadata has one entry for each class
    that is a catalog identifier, in class order, and none for the others;
    every entry carries the display name, country and centroid the catalog
    gives for its identifier. *)
Theorem region_details_follow_catalog (classes : list string) :
  regionId <$> region_details classes
  = filter (λ class, class ∈ region_ids) classes
  ∧ Forall (λ detail,
              ∃ meta, (regionId detail, meta) ∈ REGION_DEFINITIONS
                      ∧ regionName detail = name meta
                      ∧ countryCode detail = country meta
                      ∧ latitude detail = lat meta
                      ∧ longitude detail = lon meta)
      (region_details classes).
Proof.
  split; [apply region_details_ids |].
  unfold region_details. induction classes as [| class classes IH];
    [constructor |].
  cbn [omap list_omap].
  destruct (catalog_lookup class) as [meta |] eqn:Hlookup; cbn [mbind option_bind];
    [| done].
  constructor; [| done]. exists meta. cbn.
  by split; [apply catalog_lookup_Some |].
Qed.



(** ** Loading the corpus *)





(** ** The signed message *)

Lemma string_app_nil (s : string) : "" +:+ s = s.
Proof. reflexivity. Qed.

Lemma string_app_cons (c : ascii) (a s : string) :
  String c a +:+ s = String c (a +:+ s).
Proof. reflexivity. Qed.

Lemma no_bar_app a b : no_bar (a +:+ b) = no_bar a && no_bar b.
Proof.
  induction a as [| c a IH]; [done |].
  rewrite string_app_cons. cbn [no_bar]. by rewrite IH, andb_assoc.
Qed.

Lemma pretty_N_go_no_bar (x : N) (s : string) :
  no_bar s = true → no_bar (pretty_N_go x s) = true.
Proof.
  revert s. induction (N.lt_wf_0 x) as [x _ IH]; intros s Hs.
  assert (x = 0 ∨ 0 < x)%N as [-> | Hpos] by lia.
  - by rewrite pretty_N_go_0.
  - rewrite pretty_N_go_step by done. apply IH; [by apply N.div_lt |].
    cbn [no_bar]. rewrite Hs, andb_true_r.
    unfold pretty_N_char. by repeat case_match.
Qed.

Lemma pretty_Z_no_bar (z : Z) : no_bar (pretty z) = true.
Proof.
  assert (∀ p : positive, no_bar (pretty p) = true) as Hpos.
  { intros p. unfold pretty, pretty_positive, pretty, pretty_N.
    case_decide; [done |]. by apply pretty_N_go_no_bar. }
  destruct z as [| p | p]; unfold pretty, pretty_Z; [done | apply Hpos |].
  rewrite no_bar_app. by rewrite Hpos.
Qed.

(** A field without the separator is cut off at the first separator. *)
Lemma split_at_bar (a a' r r' : string) :
  no_bar a = true → no_bar a' = true →
  a +:+ "|" +:+ r = a' +:+ "|" +:+ r' → a = a' ∧ r = r'.
Proof.
  revert a'. induction a as [| c a IH]; intros [| c' a'];
    repeat (rewrite string_app_nil || rewrite string_app_cons); cbn [no_bar].
  - intros _ _ [= ->]. done.
  - intros _ [Hc' _]%andb_true_iff [= <- _]. done.
  - intros [Hc _]%andb_true_iff _ [= -> _]. done.
  - intros [_ Ha]%andb_true_iff [_ Ha']%andb_true_iff [= -> Hrest].
    by destruct (IH a' Ha Ha' Hrest) as [-> ->].
Qed.

(** X22.  When the method, the path and the body hash contain no ['|'],
    the signed message determines the request: equal messages come from
    the same method, path, body hash, timestamp and nonce. *)
Theorem signing_message_injective
    (compute_sha384_hash : string → string)
    (method path body nonce method' path' body' nonce' : string)
    (timestamp timestamp' : Z) :
  no_bar method = true → no_bar path = true →
  no_bar (body_hash compute_sha384_hash body) = true →
  no_bar method' = true → no_bar path' = true →
  no_bar (body_hash compute_sha384_hash body') = true →
  signing_message compute_sha384_hash method path body timestamp nonce
  = signing_message compute_sha384_hash method' path' body' timestamp' nonce' →
  method = method' ∧ path = path'
  ∧ body_hash compute_sha384_hash body = body_hash compute_sha384_hash body'
  ∧ timestamp = timestamp' ∧ nonce = nonce'.
Proof.
  intros Hm Hp Hb Hm' Hp' Hb'. unfold signing_message. intros H.
  apply split_at_bar in H as [-> H]; [| done ..].
  apply split_at_bar in H as [-> H]; [| done ..].
  apply split_at_bar in H as [-> H]; [| done ..].
  apply split_at_bar in H as [Ht ->]; [| apply pretty_Z_no_bar ..].
  apply (inj pretty) in Ht. by subst.
Qed.

Lemma signing_message_injective_witness :
  "GET" = "GET" ∧ "/api/export" = "/api/export"
  ∧ body_hash (λ body, pretty (String.length body)) ""
    = body_hash (λ body, pretty (String.length body)) ""
  ∧ 1700000000 = 1700000000 ∧ "n-1" = "n-1".
Proof.
  apply (signing_message_injective (λ body, pretty (String.length body))
           "GET" "/api/export" "" "n-1" "GET" "/api/export" "" "n-1");
    reflexivity.
Defined.

Lemma string_app_assoc (a b c : string) : (a +:+ b) +:+ c = a +:+ (b +:+ c).
Proof.
  induction a as [| x a IH]; [done |].
  rewrite !string_app_cons. by rewrite IH.
Qed.

(** X23.  The signed message does not delimit its fields: a ['|'] inside
    the method or the path moves the boundary between them, so the
    requests [(method|x, path)] and [(method, x|path)] are signed as the
    same message. *)
Theorem signing_message_separator_ambiguity
    (compute_sha384_hash : string → string)
    (method x path body nonce : string) (timestamp : Z) :
  signing_message compute_sha384_hash (method +:+ "|" +:+ x) path body
    timestamp nonce
  = signing_message compute_sha384_hash method (x +:+ "|" +:+ path) body
      timestamp nonce.
Proof.
  unfold signing_message.
  by rewrite !string_app_assoc.
Qed.

(** ** The signing script *)

Section Script.

Variable compute_sha384_hash : string → string.
Variable PrivateKey : Type.
Variable load_private_key : string → result PrivateKey.
Variable sign : PrivateKey → string → result string.
Variable b64encode : string → string.
Variable int : string → option Z.

Let main := zkp_main compute_sha384_hash PrivateKey load_private_key sign
              b64encode int.

(** X24.  The argument check of the script is one short: it lets through a
    command line with five arguments, where the nonce is missing.  On such
    a command line the script does not print its usage; it fails with
    [IndexError], or with [ValueError] when the timestamp is not an
    integer, and signs nothing. *)
Theorem zkp_main_with_five_arguments (argv : list string) :
  length argv = 6%nat →
  ∃ timestamp_arg,
    argv !! 5%nat = Some timestamp_arg
    ∧ main argv = Failed match int timestamp_arg with
                         | Some _ => IndexError
                         | None => ValueError
                         end.
Proof.
  intros Hlen.
  do 6 (destruct argv as [| ? argv]; [done |]). destruct argv; [| done].
  eexists. split; [reflexivity |].
  unfold main, zkp_main. cbn [length Nat.ltb Nat.leb].
  cbn [argv_get lookup list_lookup mbind result_bind].
  by destruct (int _).
Qed.

(** X25.  The script prints its usage exactly when fewer than five
    arguments are given, and a signature only when there are at least six,
    the fifth is an integer, and [sign_request] returns that signature for
    the first six arguments. *)
Theorem zkp_main_outcomes (argv : list string) (signature : string) :
  (main argv = UsageExit1 ↔ (length argv < 6)%nat)
  ∧ (main argv = Printed signature →
     ∃ script key method path body timestamp_arg timestamp nonce rest,
       argv = script :: key :: method :: path :: body :: timestamp_arg
              :: nonce :: rest
       ∧ int timestamp_arg = Some timestamp
       ∧ sign_request compute_sha384_hash PrivateKey load_private_key sign
           b64encode key method path body timestamp nonce = Ok signature).
Proof.
  unfold main, zkp_main. destruct (length argv <? 6)%nat eqn:Hlt.
  - apply Nat.ltb_lt in Hlt. by split.
  - apply Nat.ltb_ge in Hlt. split.
    + split; [| lia]. by case_match.
    + do 6 (destruct argv as [| ? argv]; [cbn in Hlt; lia |]).
      cbn [argv_get lookup list_lookup mbind result_bind].
      destruct (int _) as [timestamp |] eqn:Hint; cbn [mbind result_bind];
        [| done].
      destruct argv as [| nonce rest]; cbn [lookup list_lookup mbind result_bind];
        [done |].
      case_match eqn:Hsign; [| done]. intros [= <-].
      by do 9 eexists.
Qed.

End Script.

Lemma zkp_main_with_five_arguments_witness :
  ∃ timestamp_arg,
    ["test-zkp.py"; "key"; "GET"; "/api/export"; ""; "1700000000"] !! 5%nat
    = Some timestamp_arg
    ∧ zkp_main (λ body, body) unit (λ _, Ok ()) (λ _ message, Ok message)
        (λ signature, signature) (λ _, Some 1700000000)
        ["test-zkp.py"; "key"; "GET"; "/api/export"; ""; "1700000000"]
      = Failed IndexError.
Proof.
  apply (zkp_main_with_five_arguments (λ body, body) unit (λ _, Ok ())
           (λ _ message, Ok message) (λ signature, signature)
           (λ _, Some 1700000000)).
  reflexivity.
Defined.
